(** * Connection status codes of the TCP package (tcp/status.py)

    The enumeration [ConnectionStatus] and its three class methods are
    embedded from the Python source.  Python integers are unbounded, so a
    status code is a [Z]; [&] is [Z.land], which agrees with Python's
    two's-complement reading of negative integers.

    The timestamp tracker and the classifier that produce a status from two
    timestamps are described by the specification only; they are modelled in
    the second half of the file. *)

From Stdlib Require Import ZArith Bool List Lia.
Import ListNotations.

Local Open Scope Z_scope.

(** ** The enumeration *)

Module ConnectionStatus.

(** [class ConnectionStatus(IntEnum)]: one constructor per member, in
    definition order. *)
Inductive t : Set :=
| Default
| Connecting
| Connected
| Maintaining
| Expired
| Error.

(** [member.value] *)
Definition value (s : t) : Z :=
  match s with
  | Default => 0x00
  | Connecting => 0x01
  | Connected => 0x11
  | Maintaining => 0x21
  | Expired => 0x22
  | Error => 0x03
  end.

(** [list(ConnectionStatus)]: the members in definition order. *)
Definition members : list t :=
  [Default; Connecting; Connected; Maintaining; Expired; Error].

(** [ConnectionStatus(code)]: lookup of a member by value; Python raises
    [ValueError] when no member has the value, rendered here as [None]. *)
Definition of_value (code : Z) : option t :=
  find (fun s => value s =? code) members.

(** A code is legal when it is the value of a member. *)
Definition legal (code : Z) : bool :=
  match of_value code with Some _ => true | None => false end.

(** [return (status & 0x30) != 0] *)
Definition is_connected (status : Z) : bool :=
  negb (Z.land status 0x30 =? 0).

(** [return (status & 0x01) == 0] *)
Definition is_expired (status : Z) : bool :=
  Z.land status 0x01 =? 0.

(** [return status == cls.Error.value] *)
Definition is_error (status : Z) : bool :=
  status =? value Error.

(** The four bits named in the class docstring. *)
Definition SENT_NOW : Z := 0x01.
Definition SENT_NOT_LONG_AGO : Z := 0x02.
Definition RECEIVED_NOW : Z := 0x10.
Definition RECEIVED_NOT_LONG_AGO : Z := 0x20.

(** Both masks [b1] and [b2] hit a set bit of [code]. *)
Definition both_set (b1 b2 code : Z) : bool :=
  negb (Z.land code b1 =? 0) && negb (Z.land code b2 =? 0).

End ConnectionStatus.

Import ConnectionStatus.

(** ** Instants and durations *)

(** Modelled from the spec: an instant is a count of whole time units on one
    clock, and a timestamp that was never set is [None]. *)
Definition Instant : Set := Z.

(** Modelled from the spec: a duration, in the same unit. *)
Definition Duration : Set := Z.

(** ** The timestamp tracker *)

Module Tracker.

(** Modelled from the spec: the two timestamps kept per connection, read
    through [last_sent] and [last_received]. *)
Record t : Set := mk {
  last_sent : option Instant;
  last_received : option Instant
}.

(** Modelled from the spec: a tracker as created for a new connection, both
    timestamps unset. *)
Definition create : t := mk None None.

(** Modelled from the spec: the monotonicity guard.  [at_] is recorded
    unless it is earlier than the instant already recorded. *)
Definition guard (recorded : option Instant) (at_ : Instant) : option Instant :=
  match recorded with
  | None => Some at_
  | Some cur => if at_ <? cur then Some cur else Some at_
  end.

(** Modelled from the spec: the tracker method [on_sent] is not part of
    status.py.  It records [at_] as the last-sent instant if [at_] is not
    earlier than the recorded value, and otherwise changes nothing; it has
    no error outcome. *)
Definition on_sent (at_ : Instant) (tr : t) : t :=
  mk (guard (last_sent tr) at_) (last_received tr).

(** Modelled from the spec: the tracker method [on_received] is not part of
    status.py; it is symmetric to [on_sent]. *)
Definition on_received (at_ : Instant) (tr : t) : t :=
  mk (last_sent tr) (guard (last_received tr) at_).

End Tracker.

(** ** The status classifier *)

Module Classifier.

(** Modelled from the spec: the recency of one direction of traffic. *)
Inductive Field : Set := NONE | RECENT | STALE.

(** Modelled from the spec: step 1 and 2 of the classifier's algorithm,
    which status.py does not contain.  NONE if the timestamp is unset or
    [now - last >= stale_threshold]; RECENT if
    [now - last < recent_threshold]; STALE otherwise. *)
Definition field (now : Instant) (last : option Instant)
    (recent_threshold stale_threshold : Duration) : Field :=
  match last with
  | None => NONE
  | Some at_ =>
      if stale_threshold <=? now - at_ then NONE
      else if now - at_ <? recent_threshold then RECENT
      else STALE
  end.

(** Modelled from the spec: the fixed table of step 3, rows by send field,
    columns by receive field. *)
Definition table (send_field recv_field : Field) : ConnectionStatus.t :=
  match send_field, recv_field with
  | NONE, NONE => Default
  | NONE, STALE => Expired
  | NONE, RECENT => Connected
  | STALE, NONE => Error
  | STALE, STALE => Expired
  | STALE, RECENT => Connected
  | RECENT, NONE => Connecting
  | RECENT, STALE => Maintaining
  | RECENT, RECENT => Connected
  end.

(** Modelled from the spec: [classify], which status.py does not contain,
    with the argument order of its contract. *)
Definition classify (now : Instant) (last_sent last_received : option Instant)
    (recent_threshold stale_threshold : Duration) : ConnectionStatus.t :=
  table (field now last_sent recent_threshold stale_threshold)
        (field now last_received recent_threshold stale_threshold).

(** Modelled from the spec: [classify(now)] as the connection calls it, on
    the timestamps its tracker holds. *)
Definition classify_tracker (now : Instant) (tr : Tracker.t)
    (recent_threshold stale_threshold : Duration) : ConnectionStatus.t :=
  classify now (Tracker.last_sent tr) (Tracker.last_received tr)
           recent_threshold stale_threshold.

(** Modelled from the spec: the three clauses of step 1 read one by one, as
    a relation between a timestamp and a field.  A timestamp is NONE when it
    is unset or at least [stale_threshold] old, RECENT when it is less than
    [recent_threshold] old, and STALE when its age is from
    [recent_threshold] up to, but not including, [stale_threshold]. *)
Inductive in_window (now : Instant) (recent_threshold stale_threshold : Duration)
  : option Instant -> Field -> Prop :=
| window_unset :
    in_window now recent_threshold stale_threshold None NONE
| window_gone (at_ : Instant) :
    stale_threshold <= now - at_ ->
    in_window now recent_threshold stale_threshold (Some at_) NONE
| window_recent (at_ : Instant) :
    now - at_ < recent_threshold ->
    in_window now recent_threshold stale_threshold (Some at_) RECENT
| window_stale (at_ : Instant) :
    recent_threshold <= now - at_ -> now - at_ < stale_threshold ->
    in_window now recent_threshold stale_threshold (Some at_) STALE.

(** Equality of fields, for the lookup in the table. *)
Definition Field_eqb (f g : Field) : bool :=
  match f, g with
  | NONE, NONE | RECENT, RECENT | STALE, STALE => true
  | _, _ => false
  end.

(** Modelled from the spec: the step-3 table as the list of its nine cells,
    row by row: send field, receive field, status. *)
Definition rows : list (Field * Field * ConnectionStatus.t) :=
  [(NONE, NONE, Default); (NONE, STALE, Expired); (NONE, RECENT, Connected);
   (STALE, NONE, Error); (STALE, STALE, Expired); (STALE, RECENT, Connected);
   (RECENT, NONE, Connecting); (RECENT, STALE, Maintaining);
   (RECENT, RECENT, Connected)].

(** Modelled from the spec: looking a pair of fields up in the table; a pair
    without a cell has no status. *)
Definition lookup_row (send_field recv_field : Field)
  : option ConnectionStatus.t :=
  option_map snd
    (find (fun r => Field_eqb (fst (fst r)) send_field &&
                    Field_eqb (snd (fst r)) recv_field) rows).

(** Modelled from the spec: the statuses the three steps of the algorithm
    allow for given timestamps, read as a relation. *)
Definition classifies (now : Instant) (last_sent last_received : option Instant)
    (recent_threshold stale_threshold : Duration) (s : ConnectionStatus.t)
  : Prop :=
  exists send_field recv_field : Field,
    in_window now recent_threshold stale_threshold last_sent send_field /\
    in_window now recent_threshold stale_threshold last_received recv_field /\
    lookup_row send_field recv_field = Some s.

(** Modelled from the spec: the bits the data model gives one field.  A
    recent field sets only the recent bit, a stale field only the stale
    bit, and a field that is NONE sets neither. *)
Definition send_bits (f : Field) : Z :=
  match f with
  | NONE => 0x00
  | RECENT => SENT_NOW
  | STALE => SENT_NOT_LONG_AGO
  end.

Definition recv_bits (f : Field) : Z :=
  match f with
  | NONE => 0x00
  | RECENT => RECEIVED_NOW
  | STALE => RECEIVED_NOT_LONG_AGO
  end.

(** Modelled from the spec: the code made of the bits of both fields. *)
Definition bit_code (send_field recv_field : Field) : Z :=
  Z.lor (send_bits send_field) (recv_bits recv_field).

End Classifier.

(** ** Basic facts about the enumeration *)

Ltac by_member s := destruct s; vm_compute; intuition (try discriminate; auto).

Lemma members_complete (s : t) : In s members.
Proof. destruct s; simpl; tauto. Qed.

Lemma value_inj (s1 s2 : t) : value s1 = value s2 -> s1 = s2.
Proof. destruct s1, s2; simpl; intros H; try reflexivity; discriminate H. Qed.

Lemma of_value_value (s : t) : of_value (value s) = Some s.
Proof. destruct s; reflexivity. Qed.

Lemma of_value_sound (code : Z) (s : t) :
  of_value code = Some s -> value s = code.
Proof.
  unfold of_value. intros H. apply find_some in H.
  destruct H as [_ H]. now apply Z.eqb_eq in H.
Qed.

Lemma legal_iff (code : Z) : legal code = true <-> exists s, value s = code.
Proof.
  unfold legal. split.
  - destruct (of_value code) as [s|] eqn:E; [|discriminate].
    intros _. exists s. now apply of_value_sound.
  - intros [s <-]. now rewrite of_value_value.
Qed.

(** ** Bit-level reading of the predicates *)

Lemma is_expired_even (x : Z) : is_expired x = Z.even x.
Proof.
  unfold is_expired. change 0x01 with (Z.ones 1).
  rewrite Z.land_ones by lia. change (2 ^ 1) with 2.
  rewrite Zeven_mod. reflexivity.
Qed.

Lemma is_expired_testbit (x : Z) : is_expired x = negb (Z.testbit x 0).
Proof. rewrite is_expired_even, Z.bit0_odd, Z.negb_odd. reflexivity. Qed.

Lemma land_0x30_testbit (x n : Z) :
  Z.testbit (Z.land x 0x30) n =
  Z.testbit x n && ((n =? 4) || (n =? 5)).
Proof.
  rewrite Z.land_spec. f_equal.
  destruct (Z.ltb_spec n 0) as [Hn|Hn].
  - rewrite Z.testbit_neg_r by assumption.
    destruct (Z.eqb_spec n 4), (Z.eqb_spec n 5); try lia; reflexivity.
  - destruct (Z.ltb_spec n 6) as [H6|H6].
    + assert (n = 0 \/ n = 1 \/ n = 2 \/ n = 3 \/ n = 4 \/ n = 5) as C by lia.
      destruct C as [->|[->|[->|[->|[->| ->]]]]]; reflexivity.
    + destruct (Z.eqb_spec n 4), (Z.eqb_spec n 5); try lia.
      simpl orb. apply Z.bits_above_log2; [lia|].
      change (Z.log2 0x30) with 5. lia.
Qed.

Lemma is_connected_testbit (x : Z) :
  is_connected x = Z.testbit x 4 || Z.testbit x 5.
Proof.
  unfold is_connected.
  destruct (Z.testbit x 4) eqn:E4.
  - simpl. apply negb_true_iff, Z.eqb_neq. intros H.
    assert (Z.testbit (Z.land x 0x30) 4 = false) as F
        by (rewrite H; apply Z.bits_0).
    rewrite land_0x30_testbit, E4 in F. discriminate F.
  - destruct (Z.testbit x 5) eqn:E5.
    + simpl. apply negb_true_iff, Z.eqb_neq. intros H.
      assert (Z.testbit (Z.land x 0x30) 5 = false) as F
          by (rewrite H; apply Z.bits_0).
      rewrite land_0x30_testbit, E5 in F. discriminate F.
    + simpl. apply negb_false_iff, Z.eqb_eq, Z.bits_inj'. intros n _.
      rewrite land_0x30_testbit, Z.bits_0.
      destruct (Z.eqb_spec n 4) as [->|]; [now rewrite E4|].
      destruct (Z.eqb_spec n 5) as [->|]; [now rewrite E5|].
      apply andb_false_r.
Qed.

(** ** The enumeration and its predicates on the legal codes *)

(** C5: ConnectionStatus has exactly six members, with the codes
    Default = 0x00, Connecting = 0x01, Connected = 0x11, Maintaining = 0x21,
    Expired = 0x22 and Error = 0x03, and the six codes are pairwise
    distinct. *)
Theorem six_distinct_codes :
  map value members = [0x00; 0x01; 0x11; 0x21; 0x22; 0x03] /\
  length members = 6%nat /\
  (forall s : ConnectionStatus.t, In s members) /\
  NoDup (map value members) /\
  (forall code, legal code = true <-> In code [0x00; 0x01; 0x11; 0x21; 0x22; 0x03]).
Proof.
  split; [reflexivity|]. split; [reflexivity|].
  split; [exact members_complete|]. split.
  - simpl. repeat constructor; simpl; intuition discriminate.
  - intros code. split.
    + rewrite legal_iff. intros [s <-]. destruct s; simpl; tauto.
    + simpl. intros H.
      repeat (destruct H as [<-|H]; [reflexivity|]). contradiction.
Qed.

(** Against C1 as stated: the code of Error is 0x03, whose lowest bit is
    set, so [is_expired] is false on it. *)
Lemma is_expired_Error :
  value Error = 0x03 /\ is_expired 0x03 = false.
Proof. split; reflexivity. Qed.

(** C1, as the code has it: on the legal codes [is_expired] is true exactly
    for Default (0x00) and Expired (0x22), and false exactly for
    Connecting (0x01), Connected (0x11), Maintaining (0x21) and
    Error (0x03). *)
Theorem is_expired_legal (s : ConnectionStatus.t) :
  (is_expired (value s) = true <-> s = Default \/ s = Expired) /\
  (is_expired (value s) = false <->
     s = Connecting \/ s = Connected \/ s = Maintaining \/ s = Error).
Proof. by_member s. Qed.

(** Against C2 as stated: both send bits, 0x01 and 0x02, are set in the
    code of Error. *)
Lemma send_bits_Error :
  value Error = 0x03 /\
  Z.land 0x03 SENT_NOW = 0x01 /\ Z.land 0x03 SENT_NOT_LONG_AGO = 0x02 /\
  both_set SENT_NOW SENT_NOT_LONG_AGO (value Error) = true.
Proof. repeat split. Qed.

(** C2, as the code has it: no legal code has both receive bits (0x10 and
    0x20) set, and the only legal code with both send bits (0x01 and 0x02)
    set is Error (0x03). *)
Theorem recent_stale_bits (s : ConnectionStatus.t) :
  both_set RECEIVED_NOW RECEIVED_NOT_LONG_AGO (value s) = false /\
  (both_set SENT_NOW SENT_NOT_LONG_AGO (value s) = true <-> s = Error).
Proof. by_member s. Qed.

(** C3: on the legal codes [is_connected] is true exactly for
    Connected (0x11), Maintaining (0x21) and Expired (0x22), false exactly
    for Default (0x00), Connecting (0x01) and Error (0x03); and on every
    integer it is the test [(code & 0x30) != 0]. *)
Theorem is_connected_legal :
  (forall s : ConnectionStatus.t,
     (is_connected (value s) = true <->
        s = Connected \/ s = Maintaining \/ s = Expired) /\
     (is_connected (value s) = false <->
        s = Default \/ s = Connecting \/ s = Error)) /\
  (forall code : Z, is_connected code = true <-> Z.land code 0x30 <> 0).
Proof.
  split.
  - intros s. by_member s.
  - intros code. unfold is_connected.
    rewrite negb_true_iff. apply Z.eqb_neq.
Qed.

(** C4: for every integer code, [is_error] is true if and only if the code
    is 0x03, the code of Error; so it is false on the other five legal
    codes. *)
Theorem is_error_iff :
  (forall code : Z, is_error code = true <-> code = 0x03) /\
  (forall s : ConnectionStatus.t,
     In s [Default; Connecting; Connected; Maintaining; Expired] ->
     is_error (value s) = false).
Proof.
  split.
  - intros code. unfold is_error. simpl value. apply Z.eqb_eq.
  - intros s H. simpl in H.
    repeat (destruct H as [<-|H]; [reflexivity|]). contradiction.
Qed.

(** C9: Expired (0x22) is the one legal code on which [is_connected] and
    [is_expired] are both true. *)
Theorem connected_and_expired (s : ConnectionStatus.t) :
  (is_connected (value s) = true /\ is_expired (value s) = true) <->
  s = Expired.
Proof. by_member s. Qed.

(** ** The predicates on arbitrary integers *)

(** C10: the three predicates are functions of every integer and do not
    look at legality: on codes that are not legal (also negative ones) they
    still answer, and not with a fixed value; [is_connected] depends only on
    the bits 0x30 of its argument and [is_expired] only on the bit 0x01. *)
Theorem predicates_unvalidated :
  (forall x y : Z, Z.land x 0x30 = Z.land y 0x30 ->
                   is_connected x = is_connected y) /\
  (forall x y : Z, Z.land x 0x01 = Z.land y 0x01 ->
                   is_expired x = is_expired y) /\
  (forall x : Z,
     is_connected x = Z.testbit x 4 || Z.testbit x 5 /\
     is_expired x = negb (Z.testbit x 0) /\
     is_error x = (x =? 0x03)) /\
  (legal 0x10 = false /\ is_connected 0x10 = true /\
   is_expired 0x10 = true /\ is_error 0x10 = false) /\
  (legal 0x02 = false /\ is_connected 0x02 = false /\
   is_expired 0x02 = true /\ is_error 0x02 = false) /\
  (legal (-1) = false /\ is_connected (-1) = true /\
   is_expired (-1) = false /\ is_error (-1) = false).
Proof.
  split; [|split; [|split]].
  - intros x y H. unfold is_connected. now rewrite H.
  - intros x y H. unfold is_expired. now rewrite H.
  - intros x. split; [apply is_connected_testbit|].
    split; [apply is_expired_testbit|reflexivity].
  - repeat split.
Qed.

(** ** The classifier *)

Import Classifier.

Section Fields.

Variables recent_threshold stale_threshold : Duration.
Hypothesis thresholds_ordered : recent_threshold < stale_threshold.

Variables now at_ : Instant.

Let elapsed : Duration := now - at_.

(** With ordered thresholds the three fields split the elapsed time into
    three intervals that meet at the thresholds without gap or overlap. *)
Lemma field_RECENT :
  field now (Some at_) recent_threshold stale_threshold = RECENT <->
  elapsed < recent_threshold.
Proof.
  unfold field, elapsed.
  destruct (Z.leb_spec stale_threshold (now - at_));
    destruct (Z.ltb_spec (now - at_) recent_threshold);
    split; intros E; try discriminate E; try reflexivity; lia.
Qed.

Lemma field_STALE :
  field now (Some at_) recent_threshold stale_threshold = STALE <->
  recent_threshold <= elapsed < stale_threshold.
Proof.
  unfold field, elapsed.
  destruct (Z.leb_spec stale_threshold (now - at_));
    destruct (Z.ltb_spec (now - at_) recent_threshold);
    split; intros E; try discriminate E; try reflexivity; lia.
Qed.

Lemma field_NONE :
  field now (Some at_) recent_threshold stale_threshold = NONE <->
  stale_threshold <= elapsed.
Proof.
  unfold field, elapsed.
  destruct (Z.leb_spec stale_threshold (now - at_));
    destruct (Z.ltb_spec (now - at_) recent_threshold);
    split; intros E; try discriminate E; try reflexivity; lia.
Qed.

End Fields.

Lemma table_legal (send_field recv_field : Field) :
  of_value (value (table send_field recv_field)) =
  Some (table send_field recv_field).
Proof. apply of_value_value. Qed.

(** The first scenario of the specification, thresholds 5 and 30: a probe
    sent at 0, a reply received at 2. *)
Example scenario_probe_reply :
  let tr0 := Tracker.on_sent 0 Tracker.create in
  let tr1 := Tracker.on_received 2 tr0 in
  classify_tracker 2 tr0 5 30 = Connecting /\
  classify_tracker 3 tr1 5 30 = Connected /\
  classify_tracker 10 tr1 5 30 = Expired /\
  classify_tracker 40 tr1 5 30 = Default.
Proof. repeat split. Qed.

(** Nothing received, probes sent at 0 and at 6: the algorithm gives
    Connecting right after the second probe, Error once that probe is
    between the thresholds, and Default when it is 34 units old. *)
Example scenario_no_reply :
  let tr := Tracker.on_sent 6 (Tracker.on_sent 0 Tracker.create) in
  classify_tracker 6 tr 5 30 = Connecting /\
  classify_tracker 20 tr 5 30 = Error /\
  classify_tracker 40 tr 5 30 = Default.
Proof. repeat split. Qed.

(** The function [field] picks a window of the relation, whatever the
    thresholds. *)
Lemma field_in_window (now : Instant) (last : option Instant)
    (recent_threshold stale_threshold : Duration) :
  in_window now recent_threshold stale_threshold last
            (field now last recent_threshold stale_threshold).
Proof.
  destruct last as [at_|]; [|constructor]. unfold field.
  destruct (Z.leb_spec stale_threshold (now - at_)) as [Hs|Hs].
  - now apply window_gone.
  - destruct (Z.ltb_spec (now - at_) recent_threshold) as [Hr|Hr].
    + now apply window_recent.
    + now apply window_stale.
Qed.

(** With ordered thresholds the windows do not overlap, so [field] is the
    only choice. *)
Lemma in_window_field (now : Instant) (last : option Instant)
    (recent_threshold stale_threshold : Duration) (f : Field) :
  recent_threshold < stale_threshold ->
  in_window now recent_threshold stale_threshold last f ->
  f = field now last recent_threshold stale_threshold.
Proof.
  intros Hord W. destruct W as [|at_ Hs|at_ Hr|at_ Hr Hs]; unfold field.
  - reflexivity.
  - destruct (Z.leb_spec stale_threshold (now - at_)); [reflexivity|lia].
  - destruct (Z.leb_spec stale_threshold (now - at_)); [lia|].
    destruct (Z.ltb_spec (now - at_) recent_threshold); [reflexivity|lia].
  - destruct (Z.leb_spec stale_threshold (now - at_)); [lia|].
    destruct (Z.ltb_spec (now - at_) recent_threshold); [lia|reflexivity].
Qed.

(** Without that order they can: thresholds 30 and 5 put an age of 10 in
    the NONE window and in the RECENT window. *)
Example windows_overlap_unordered :
  in_window 10 30 5 (Some 0) NONE /\ in_window 10 30 5 (Some 0) RECENT.
Proof.
  split.
  - apply window_gone. intros C; discriminate C.
  - apply window_recent. reflexivity.
Qed.

(** Every pair of fields has a cell in the table, the one [table] gives. *)
Lemma lookup_row_table (send_field recv_field : Field) :
  lookup_row send_field recv_field = Some (table send_field recv_field).
Proof. destruct send_field, recv_field; reflexivity. Qed.

(** Ages that fall in the RECENT and in the STALE window when the
    thresholds are ordered. *)
Lemma field_recent_at (now : Instant) (recent_threshold stale_threshold : Duration) :
  recent_threshold < stale_threshold ->
  field now (Some (now - recent_threshold + 1))
        recent_threshold stale_threshold = RECENT.
Proof.
  intros H. symmetry. apply in_window_field; [exact H|].
  apply window_recent. lia.
Qed.

Lemma field_stale_at (now : Instant) (recent_threshold stale_threshold : Duration) :
  recent_threshold < stale_threshold ->
  field now (Some (now - recent_threshold))
        recent_threshold stale_threshold = STALE.
Proof.
  intros H. symmetry. apply in_window_field; [exact H|].
  apply window_stale; lia.
Qed.

(** The bits of the two fields, put together, are the code of the table's
    status on five of the nine pairs of fields; on the other four they are
    the code of no member, and they are never the code of Error.  The
    classifier is modelled by the table. *)
Lemma bit_code_vs_table (send_field recv_field : Field) :
  (bit_code send_field recv_field = value (table send_field recv_field) <->
   In (send_field, recv_field)
      [(NONE, NONE); (RECENT, NONE); (RECENT, RECENT); (RECENT, STALE);
       (STALE, STALE)]) /\
  (legal (bit_code send_field recv_field) = false <->
   In (send_field, recv_field)
      [(NONE, STALE); (NONE, RECENT); (STALE, NONE); (STALE, RECENT)]) /\
  is_error (bit_code send_field recv_field) = false.
Proof.
  destruct send_field, recv_field; vm_compute;
    intuition (try discriminate; try congruence).
Qed.

(** C6: for all instants, timestamps (set or unset) and thresholds with
    [recent_threshold < stale_threshold], [classify] yields a status, and
    its code is one of the six legal codes.  The status is the one, and the
    only one, that the windows of the two timestamps and the lookup in the
    table allow, so no input is left without a status; and each of the six
    members is the status of some timestamps. *)
Theorem classify_legal (now : Instant) (last_sent last_received : option Instant)
    (recent_threshold stale_threshold : Duration) :
  recent_threshold < stale_threshold ->
  exists s : ConnectionStatus.t,
    classify now last_sent last_received recent_threshold stale_threshold = s /\
    In (value s) [0x00; 0x01; 0x11; 0x21; 0x22; 0x03] /\
    of_value (value s) = Some s /\
    classifies now last_sent last_received recent_threshold stale_threshold s /\
    (forall s' : ConnectionStatus.t,
       classifies now last_sent last_received
                  recent_threshold stale_threshold s' -> s' = s) /\
    (forall m : ConnectionStatus.t,
       exists sent received : option Instant,
         classify now sent received recent_threshold stale_threshold = m).
Proof.
  intros Hord. eexists. split; [reflexivity|].
  split; [|split; [|split; [|split]]].
  - unfold classify.
    destruct (field now last_sent _ _), (field now last_received _ _);
      simpl; tauto.
  - apply of_value_value.
  - exists (field now last_sent recent_threshold stale_threshold),
           (field now last_received recent_threshold stale_threshold).
    split; [apply field_in_window|]. split; [apply field_in_window|].
    apply lookup_row_table.
  - intros s' [sf [rf [Ws [Wr L]]]].
    apply (in_window_field _ _ _ _ _ Hord) in Ws.
    apply (in_window_field _ _ _ _ _ Hord) in Wr.
    rewrite lookup_row_table in L. injection L as <-.
    unfold classify. now rewrite <- Ws, <- Wr.
  - pose proof (field_recent_at now _ _ Hord) as R.
    pose proof (field_stale_at now _ _ Hord) as S.
    intros m. destruct m.
    + exists None, None. reflexivity.
    + exists (Some (now - recent_threshold + 1)), None.
      unfold classify. rewrite R. reflexivity.
    + exists (Some (now - recent_threshold + 1)),
             (Some (now - recent_threshold + 1)).
      unfold classify. rewrite R. reflexivity.
    + exists (Some (now - recent_threshold + 1)),
             (Some (now - recent_threshold)).
      unfold classify. rewrite R, S. reflexivity.
    + exists (Some (now - recent_threshold)), (Some (now - recent_threshold)).
      unfold classify. rewrite S. reflexivity.
    + exists (Some (now - recent_threshold)), None.
      unfold classify. rewrite S. reflexivity.
Qed.

(** [classify_legal] at the third poll of the first scenario. *)
Lemma classify_legal_witness :
  5 < 30 /\
  exists s : ConnectionStatus.t,
    classify 10 (Some 0) (Some 2) 5 30 = s /\
    In (value s) [0x00; 0x01; 0x11; 0x21; 0x22; 0x03] /\
    of_value (value s) = Some s /\
    classifies 10 (Some 0) (Some 2) 5 30 s /\
    (forall s' : ConnectionStatus.t,
       classifies 10 (Some 0) (Some 2) 5 30 s' -> s' = s) /\
    (forall m : ConnectionStatus.t,
       exists sent received : option Instant,
         classify 10 sent received 5 30 = m).
Proof.
  split; [reflexivity|].
  apply (classify_legal 10 (Some 0) (Some 2) 5 30). reflexivity.
Defined.

(** C7: whatever the instant [now] (and the thresholds), [classify] with
    both timestamps unset returns Default. *)
Theorem classify_unset (now : Instant) (recent_threshold stale_threshold : Duration) :
  classify now None None recent_threshold stale_threshold = Default.
Proof.
  unfold classify.
  change (field now None recent_threshold stale_threshold) with NONE.
  reflexivity.
Qed.

(** ** The tracker *)

Import Tracker.

Lemma guard_max (cur at_ : Instant) :
  guard (Some cur) at_ = Some (Z.max cur at_).
Proof. unfold guard. destruct (Z.ltb_spec at_ cur); f_equal; lia. Qed.

Lemma guard_set (recorded : option Instant) (at_ : Instant) :
  exists cur, guard recorded at_ = Some cur /\ at_ <= cur.
Proof.
  destruct recorded as [cur|].
  - rewrite guard_max. eexists. split; [reflexivity|lia].
  - exists at_. split; [reflexivity|lia].
Qed.

Lemma guard_earlier (cur at_ : Instant) :
  at_ < cur -> guard (Some cur) at_ = Some cur.
Proof. intros H. rewrite guard_max. f_equal. lia. Qed.

Lemma guard_then_later (recorded : option Instant) (a b : Instant) :
  a <= b -> guard (guard recorded a) b = guard recorded b.
Proof.
  intros H. destruct recorded as [cur|].
  - rewrite !guard_max. f_equal. lia.
  - change (guard None a) with (Some a). change (guard None b) with (Some b).
    rewrite guard_max. f_equal. lia.
Qed.

Lemma guard_then_earlier (recorded : option Instant) (a b : Instant) :
  a <= b -> guard (guard recorded b) a = guard recorded b.
Proof.
  intros H. destruct (guard_set recorded b) as [cur [-> Hcur]].
  rewrite guard_max. f_equal. lia.
Qed.

(** C8: for instants [a <= b] and any tracker, [on_sent] at [a] then [b],
    at [b] then [a], or at [b] twice leaves the tracker as one [on_sent] at
    [b] does, and likewise [on_received]; an instant earlier than the
    recorded one leaves the tracker unchanged, and neither operation has an
    error outcome. *)
Theorem on_event_idempotent (a b : Instant) (tr : Tracker.t) :
  a <= b ->
  (on_sent b (on_sent a tr) = on_sent b tr /\
   on_sent a (on_sent b tr) = on_sent b tr /\
   on_sent b (on_sent b tr) = on_sent b tr) /\
  (on_received b (on_received a tr) = on_received b tr /\
   on_received a (on_received b tr) = on_received b tr /\
   on_received b (on_received b tr) = on_received b tr) /\
  (forall e cur : Instant,
     last_sent tr = Some cur -> e < cur -> on_sent e tr = tr) /\
  (forall e cur : Instant,
     last_received tr = Some cur -> e < cur -> on_received e tr = tr).
Proof.
  intros H. destruct tr as [s r]. unfold on_sent, on_received. simpl.
  repeat split.
  - f_equal. now apply guard_then_later.
  - f_equal. now apply guard_then_earlier.
  - f_equal. apply guard_then_later. lia.
  - f_equal. now apply guard_then_later.
  - f_equal. now apply guard_then_earlier.
  - f_equal. apply guard_then_later. lia.
  - intros e cur -> He. f_equal. now apply guard_earlier.
  - intros e cur -> He. f_equal. now apply guard_earlier.
Qed.

(** [on_event_idempotent] at instants 1 and 2 on a tracker that last sent
    at 0. *)
Lemma on_event_idempotent_witness :
  1 <= 2 /\
  on_sent 2 (on_sent 1 (mk (Some 0) None)) = on_sent 2 (mk (Some 0) None) /\
  on_sent 1 (on_sent 2 (mk (Some 0) None)) = on_sent 2 (mk (Some 0) None) /\
  on_sent 2 (on_sent 2 (mk (Some 0) None)) = on_sent 2 (mk (Some 0) None).
Proof.
  assert (1 <= 2) as H by (intros C; discriminate C).
  split; [exact H|].
  exact (proj1 (on_event_idempotent 1 2 (mk (Some 0) None) H)).
Defined.

(** ** Further properties of the status codes *)

(** X1: every member's code is built from the four bits of the docstring
    only (mask 0x33), and lies between 0x00 and 0x22, so it fits the one
    byte the source writes it in. *)
Theorem codes_within_documented_bits (s : ConnectionStatus.t) :
  Z.land (value s)
         (Z.lor (Z.lor SENT_NOW SENT_NOT_LONG_AGO)
                (Z.lor RECEIVED_NOW RECEIVED_NOT_LONG_AGO)) = value s /\
  0x00 <= value s <= 0x22.
Proof. destruct s; vm_compute; repeat split; intros C; discriminate C. Qed.

(** X2: on the codes from 0 up to 0x3F, which include every member's code,
    [is_connected] is the comparison [status >= 0x10]. *)
Theorem is_connected_threshold (status : Z) :
  0 <= status < 0x40 -> is_connected status = (0x10 <=? status).
Proof.
  intros [Hlo Hhi]. rewrite is_connected_testbit, !Z.testbit_odd.
  rewrite !Z.shiftr_div_pow2 by lia.
  change (2 ^ 4) with 16. change (2 ^ 5) with (16 * 2).
  rewrite <- Z.div_div by lia.
  assert (0 <= status / 16 < 4) as Hq
      by (split; [apply Z.div_pos; lia | apply Z.div_lt_upper_bound; lia]).
  pose proof (Z.div_mod status 16 ltac:(lia)) as Hdm.
  pose proof (Z.mod_pos_bound status 16 ltac:(lia)) as Hm.
  assert (status / 16 = 0 \/ status / 16 = 1 \/
          status / 16 = 2 \/ status / 16 = 3) as C by lia.
  destruct (Z.leb_spec 0x10 status);
    destruct C as [E|[E|[E|E]]]; rewrite E in *; try reflexivity; lia.
Qed.

(** [is_connected_threshold] at the code of Maintaining. *)
Lemma is_connected_threshold_witness :
  0 <= 0x21 < 0x40 /\ is_connected 0x21 = (0x10 <=? 0x21).
Proof.
  assert (0 <= 0x21 < 0x40) as H
      by (split; [intros C; discriminate C | reflexivity]).
  split; [exact H|]. exact (is_connected_threshold 0x21 H).
Defined.

(** X3: as integers the members are ordered Default < Connecting < Error <
    Connected < Maintaining < Expired, which is not the definition order,
    and a member is connected exactly when it compares [>= Connected]. *)
Theorem members_by_value :
  value Default < value Connecting /\ value Connecting < value Error /\
  value Error < value Connected /\ value Connected < value Maintaining /\
  value Maintaining < value Expired /\
  (forall s : ConnectionStatus.t,
     is_connected (value s) = (value Connected <=? value s)).
Proof.
  repeat split. intros s. destruct s; reflexivity.
Qed.

(** X4: two members get the same answers from all three predicates exactly
    when they are the same member or are Connected and Maintaining: the
    predicates tell every other pair apart. *)
Theorem predicates_separate (s1 s2 : ConnectionStatus.t) :
  (is_connected (value s1) = is_connected (value s2) /\
   is_expired (value s1) = is_expired (value s2) /\
   is_error (value s1) = is_error (value s2)) <->
  (s1 = s2 \/ (s1 = Connected /\ s2 = Maintaining) \/
   (s1 = Maintaining /\ s2 = Connected)).
Proof.
  split.
  - intros [Hc [He Hr]].
    destruct s1, s2; vm_compute in Hc, He, Hr;
      try discriminate Hc; try discriminate He; try discriminate Hr;
      try (left; reflexivity);
      [right; left | right; right]; split; reflexivity.
  - intros [->|[[-> ->]|[-> ->]]]; repeat split.
Qed.

(** X5: the predicates on codes combined bit by bit.  A bitwise or is
    connected when either side is and expired when both sides are; a
    bitwise and is expired when either side is, and connected only if both
    sides are. *)
Theorem predicates_bitwise (x y : Z) :
  is_connected (Z.lor x y) = is_connected x || is_connected y /\
  is_expired (Z.lor x y) = is_expired x && is_expired y /\
  is_expired (Z.land x y) = is_expired x || is_expired y /\
  implb (is_connected (Z.land x y)) (is_connected x && is_connected y) = true.
Proof.
  rewrite !is_connected_testbit, !is_expired_testbit.
  rewrite !Z.lor_spec, !Z.land_spec.
  destruct (Z.testbit x 0), (Z.testbit y 0), (Z.testbit x 4),
    (Z.testbit y 4), (Z.testbit x 5), (Z.testbit y 5); repeat split.
Qed.

(** X6: looking a member up by its code and reading the code back are
    inverse, and the lookup fails on every integer that is not one of the
    six codes, among them all negative integers and all above 0x22. *)
Theorem lookup_round_trip :
  (forall (code : Z) (s : ConnectionStatus.t),
     of_value code = Some s <-> value s = code) /\
  (forall code : Z,
     of_value code = None <->
     ~ In code [0x00; 0x01; 0x11; 0x21; 0x22; 0x03]) /\
  (forall code : Z, code < 0x00 \/ 0x22 < code -> of_value code = None).
Proof.
  assert (forall code, of_value code = None <->
                       ~ In code [0x00; 0x01; 0x11; 0x21; 0x22; 0x03]) as N.
  { intros code. split.
    - intros E H. simpl in H.
      repeat (destruct H as [<-|H]; [discriminate E|]). exact H.
    - intros H. destruct (of_value code) as [s|] eqn:E; [|reflexivity].
      exfalso. apply H. apply of_value_sound in E. subst code.
      destruct s; simpl; tauto. }
  split; [|split].
  - intros code s. split.
    + apply of_value_sound.
    + intros <-. apply of_value_value.
  - exact N.
  - intros code H. apply N. simpl. lia.
Qed.

(** X7: Default is the only member without a send bit (0x01 or 0x02) in
    its code, so every member with a receive bit (0x10 or 0x20) has a send
    bit too. *)
Theorem send_bit_unless_default (s : ConnectionStatus.t) :
  (Z.land (value s) (Z.lor SENT_NOW SENT_NOT_LONG_AGO) = 0 <-> s = Default) /\
  implb (is_connected (value s))
        (negb (Z.land (value s) (Z.lor SENT_NOW SENT_NOT_LONG_AGO) =? 0))
  = true.
Proof. by_member s. Qed.
